(** * MeetingNotes: the runtime configuration of the static site

    The unit under verification is [web/config.js]:

<<
    window.CONFIG = {
      // Render backend public URL (used for GitHub Pages frontend calls)
      API_BASE_URL: 'https://meetingnotes.onrender.com',
    };
>>

    The script is embedded as a term of a small fragment of JavaScript
    (object literals, member reads, member assignments) that is run by an
    executable interpreter over a realm: the global object [window] and a
    heap of objects reached through references.  Consumers of the
    configuration are scripts of the same fragment that run later on the
    same page. *)

From Stdlib Require Import ZArith Ascii String.
From stdpp Require Import gmap strings list.

(** ** Values, objects and the realm *)

Module JS.

(** An object is either the global object or lives in the heap. *)
Inductive ref : Type :=
  | Global
  | Loc (l : nat).

(** Number literals are kept to the integers: no claim computes on them. *)
Inductive value : Type :=
  | VUndefined
  | VNull
  | VNumber (z : Z)
  | VString (s : string)
  | VObject (o : ref).

(** The own data properties of an object.  An own property shadows the
    prototype chain, which is left out. *)
Abbreviation object := (gmap string value).

Record realm : Type := Realm {
  global : object;
  heap : list object
}.

Inductive error : Type :=
  | TypeError
  | BadReference.

Inductive result (A : Type) : Type :=
  | Ok (a : A)
  | Throw (e : error).

Arguments Ok {A} a.
Arguments Throw {A} e.

#[global] Instance ref_eq_dec : EqDecision ref.
Proof. solve_decision. Defined.

#[global] Instance value_eq_dec : EqDecision value.
Proof. solve_decision. Defined.

(** [new Object]: the object is placed at the end of the heap. *)
Definition alloc (o : object) (r : realm) : ref * realm :=
  (Loc (length (heap r)), Realm (global r) (heap r ++ [o])).

(** The object a reference denotes. *)
Definition deref (x : ref) (r : realm) : option object :=
  match x with
  | Global => Some (global r)
  | Loc l => heap r !! l
  end.

(** [base.p] as an rvalue.  A missing own property reads as [undefined];
    so does a property of a primitive string or number (what their
    prototypes provide is left out with the prototype chain); reading
    through [undefined] or [null] throws a [TypeError]. *)
Definition get_prop (base : value) (p : string) (r : realm) : result value :=
  match base with
  | VUndefined | VNull => Throw TypeError
  | VNumber _ | VString _ => Ok VUndefined
  | VObject x =>
      match deref x r with
      | Some o => Ok (default VUndefined (o !! p))
      | None => Throw BadReference
      end
  end.

(** [base.p = v].  Objects are extensible and their properties writable
    (nothing is frozen); an assignment to a property of a primitive is
    dropped, as in a classic script. *)
Definition set_prop (base : value) (p : string) (v : value) (r : realm)
  : result realm :=
  match base with
  | VUndefined | VNull => Throw TypeError
  | VNumber _ | VString _ => Ok r
  | VObject Global => Ok (Realm (<[p := v]> (global r)) (heap r))
  | VObject (Loc l) =>
      match heap r !! l with
      | Some o => Ok (Realm (global r) (<[l := <[p := v]> o]> (heap r)))
      | None => Throw BadReference
      end
  end.

(** ** Syntax of the fragment *)

#[local] Set Warnings "-register-all".

Inductive expr : Type :=
  | EWindow
  | EUndefined
  | ENull
  | ENumber (z : Z)
  | EString (s : string)
  | EObject (props : list (string * expr))
  | EMember (e : expr) (p : string).

(** [target.p = rhs;] *)
Inductive stmt : Type :=
  | SAssign (target : expr) (p : string) (rhs : expr).

(** ** Evaluation *)

Fixpoint eval (e : expr) (r : realm) : result (value * realm) :=
  match e with
  | EWindow => Ok (VObject Global, r)
  | EUndefined => Ok (VUndefined, r)
  | ENull => Ok (VNull, r)
  | ENumber z => Ok (VNumber z, r)
  | EString s => Ok (VString s, r)
  | EObject props =>
      (fix fields (ps : list (string * expr)) (o : object) (r : realm)
         : result (value * realm) :=
         match ps with
         | [] => let (x, r') := alloc o r in Ok (VObject x, r')
         | (k, e') :: ps' =>
             match eval e' r with
             | Ok (v, r') => fields ps' (<[k := v]> o) r'
             | Throw err => Throw err
             end
         end) props ∅ r
  | EMember e' p =>
      match eval e' r with
      | Ok (b, r') =>
          match get_prop b p r' with
          | Ok v => Ok (v, r')
          | Throw err => Throw err
          end
      | Throw err => Throw err
      end
  end.

(** The properties of an object literal, left to right. *)
Fixpoint eval_fields (ps : list (string * expr)) (o : object) (r : realm)
  : result (value * realm) :=
  match ps with
  | [] => let (x, r') := alloc o r in Ok (VObject x, r')
  | (k, e') :: ps' =>
      match eval e' r with
      | Ok (v, r') => eval_fields ps' (<[k := v]> o) r'
      | Throw err => Throw err
      end
  end.

Definition exec (s : stmt) (r : realm) : result realm :=
  match s with
  | SAssign target p rhs =>
      match eval target r with
      | Ok (b, r1) =>
          match eval rhs r1 with
          | Ok (v, r2) => set_prop b p v r2
          | Throw err => Throw err
          end
      | Throw err => Throw err
      end
  end.

(** A script stops at the first statement that throws. *)
Fixpoint exec_script (ss : list stmt) (r : realm) : result realm :=
  match ss with
  | [] => Ok r
  | s :: ss' =>
      match exec s r with
      | Ok r' => exec_script ss' r'
      | Throw err => Throw err
      end
  end.

End JS.

Import JS.

(** ** The artifact *)

(** [web/config.js], line by line (comments dropped). *)
Definition config_js : list stmt :=
  [ SAssign EWindow "CONFIG"
      (EObject [ ("API_BASE_URL", EString "https://meetingnotes.onrender.com") ]) ].

(** The consumers' read, [window.CONFIG.API_BASE_URL]: it takes the realm
    and nothing else. *)
Definition get_api_base_url (r : realm) : result (value * realm) :=
  eval (EMember (EMember EWindow "CONFIG") "API_BASE_URL") r.

(** ** URLs

    The generic syntax of RFC 3986: the component split of its appendix B,
    followed by the character classes of its ABNF.  Hosts are registered
    names or dotted addresses; a bracketed IP literal is not accepted. *)

Module URL.

Local Open Scope char_scope.

Record url : Type := Url {
  scheme : string;
  userinfo : option string;
  host : string;
  port : option string;
  path : string;
  query : option string;
  fragment : option string
}.

Definition between (lo hi : N) (c : ascii) : bool :=
  let n := N_of_ascii c in (lo <=? n)%N && (n <=? hi)%N.

Definition one_of (cs : string) (c : ascii) : bool :=
  existsb (Ascii.eqb c) (list_ascii_of_string cs).

Definition is_alpha (c : ascii) : bool := between 65 90 c || between 97 122 c.
Definition is_digit (c : ascii) : bool := between 48 57 c.
Definition is_hexdig (c : ascii) : bool :=
  is_digit c || between 65 70 c || between 97 102 c.
Definition is_unreserved (c : ascii) : bool :=
  is_alpha c || is_digit c || one_of "-._~" c.
Definition is_sub_delim (c : ascii) : bool := one_of "!$&'()*+,;=" c.
Definition is_scheme_char (c : ascii) : bool :=
  is_alpha c || is_digit c || one_of "+-." c.
Definition is_reg_name_char (c : ascii) : bool :=
  is_unreserved c || is_sub_delim c.
Definition is_userinfo_char (c : ascii) : bool :=
  is_reg_name_char c || Ascii.eqb c ":".
Definition is_pchar (c : ascii) : bool :=
  is_reg_name_char c || one_of ":@" c.
Definition is_path_char (c : ascii) : bool := is_pchar c || Ascii.eqb c "/".
Definition is_query_char (c : ascii) : bool := is_pchar c || one_of "/?" c.

(** Every character is in the class [ok] or opens a percent escape. *)
Fixpoint all_chars (ok : ascii -> bool) (s : string) : bool :=
  match s with
  | EmptyString => true
  | String c s' =>
      if Ascii.eqb c "%" then
        match s' with
        | String a (String b s'') => is_hexdig a && is_hexdig b && all_chars ok s''
        | _ => false
        end
      else ok c && all_chars ok s'
  end.

(** The prefix before the first character of [stops], and the rest from
    that character on. *)
Fixpoint break (stops : string) (s : string) : string * string :=
  match s with
  | EmptyString => (EmptyString, EmptyString)
  | String c s' =>
      if one_of stops c then (EmptyString, s)
      else let (a, b) := break stops s' in (String c a, b)
  end.

(** What follows [sep] when the string starts with it. *)
Definition after (sep : ascii) (s : string) : option string :=
  match s with
  | String c s' => if Ascii.eqb c sep then Some s' else None
  | EmptyString => None
  end.

Definition valid_scheme (s : string) : bool :=
  match s with
  | String c s' => is_alpha c && forallb is_scheme_char (list_ascii_of_string s')
  | EmptyString => false
  end.

(** [[userinfo "@"] host [":" port]] *)
Definition parse_authority (a : string)
  : option (option string * string * option string) :=
  let (before_at, from_at) := break "@" a in
  let (ui, hostport) :=
    match after "@" from_at with
    | Some hp => (Some before_at, hp)
    | None => (None, a)
    end in
  let (h, from_colon) := break ":" hostport in
  let prt := after ":" from_colon in
  if forallb (all_chars is_userinfo_char) (option_list ui)
     && all_chars is_reg_name_char h
     && forallb (fun p => forallb is_digit (list_ascii_of_string p)) (option_list prt)
  then Some (ui, h, prt)
  else None.

(** [scheme "://" authority path-abempty ["?" query] ["#" fragment]] *)
Definition parse_url (s : string) : option url :=
  let (sch, from_colon) := break ":/?#" s in
  rest ← after ":" from_colon;
  rest ← after "/" rest;
  rest ← after "/" rest;
  let (auth, from_path) := break "/?#" rest in
  let (pth, from_query) := break "?#" from_path in
  let (qry, from_fragment) :=
    match after "?" from_query with
    | Some q => let (q', f) := break "#" q in (Some q', f)
    | None => (None, from_query)
    end in
  let frg := after "#" from_fragment in
  '(ui, h, prt) ← parse_authority auth;
  if valid_scheme sch
     && all_chars is_path_char pth
     && forallb (all_chars is_query_char) (option_list qry)
     && forallb (all_chars is_query_char) (option_list frg)
  then Some (Url sch ui h prt pth qry frg)
  else None.

(** An [http] or [https] URL names a host. *)
Definition is_http_url (u : url) : bool :=
  (String.eqb (scheme u) "http" || String.eqb (scheme u) "https")
  && negb (String.eqb (host u) "").

End URL.

(** ** The page lifetime *)


(** The heap object [window.CONFIG] refers to. *)
Definition config_object (r : realm) : option nat :=
  match global r !! "CONFIG" with
  | Some (VObject (Loc l)) => Some l
  | _ => None
  end.

(** The object and property a statement assigns to. *)
Definition assigned (s : stmt) (r : realm) : option (ref * string) :=
  match s with
  | SAssign target p _ =>
      match eval target r with
      | Ok (VObject x, _) => Some (x, p)
      | _ => None
      end
  end.

(** The ownership rule consumers are held to: a statement assigns neither
    to [window.CONFIG] nor to a property of the object it refers to. *)
Definition read_only (s : stmt) (r : realm) : bool :=
  match assigned s r with
  | Some (Global, p) => negb (String.eqb p "CONFIG")
  | Some (Loc l, _) => bool_decide (config_object r ≠ Some l)
  | None => true
  end.

(** A consumer statement; when it throws, its script ends and the page
    goes on from the realm it had (what the statement had allocated is
    unreachable). *)
Definition step (s : stmt) (r : realm) : realm :=
  match exec s r with
  | Ok r' => r'
  | Throw _ => r
  end.

Fixpoint run (cs : list stmt) (r : realm) : realm :=
  match cs with
  | [] => r
  | s :: cs' => run cs' (step s r)
  end.

Fixpoint disciplined (cs : list stmt) (r : realm) : bool :=
  match cs with
  | [] => true
  | s :: cs' => read_only s r && disciplined cs' (step s r)
  end.

(** A page load: the configuration asset first, then the consumers. *)
Definition page (r0 : realm) (cs : list stmt) : result realm :=
  match exec_script config_js r0 with
  | Ok r1 => Ok (run cs r1)
  | Throw err => Throw err
  end.

Definition page_disciplined (r0 : realm) (cs : list stmt) : bool :=
  match exec_script config_js r0 with
  | Ok r1 => disciplined cs r1
  | Throw _ => false
  end.

(** [n] reads in a row, each from the realm the one before left. *)
Fixpoint reads (n : nat) (r : realm) : result realm :=
  match n with
  | O => Ok r
  | S n' =>
      match get_api_base_url r with
      | Ok (_, r') => reads n' r'
      | Throw err => Throw err
      end
  end.

Definition last_char (s : string) : option ascii :=
  last (list_ascii_of_string s).

(** A page before any script has run, the same page once the asset has
    loaded, and three consumers:
<<
    window.API = window.CONFIG.API_BASE_URL;
    window.state = { count: 0, cfg: window.CONFIG };
    window.state.count = 1;
>> *)
Definition fresh_page : realm := Realm ∅ [].

Definition loaded_page : realm :=
  Realm {[ "CONFIG" := VObject (Loc 0) ]}
        [ {[ "API_BASE_URL" := VString "https://meetingnotes.onrender.com" ]} ].

Definition consumers : list stmt :=
  [ SAssign EWindow "API" (EMember (EMember EWindow "CONFIG") "API_BASE_URL");
    SAssign EWindow "state"
      (EObject [ ("count", ENumber 0); ("cfg", EMember EWindow "CONFIG") ]);
    SAssign (EMember EWindow "state") "count" (ENumber 1) ].

(** [window.state.cfg.API_BASE_URL = 42;] reaches the configuration
    through an alias. *)
Definition intruder : stmt :=
  SAssign (EMember (EMember EWindow "state") "cfg") "API_BASE_URL" (ENumber 42).

(** ** Invariants *)

(** [r'] has the globals of [r] and its heap, with new objects after it. *)
Definition extends (r r' : realm) : Prop :=
  global r' = global r ∧ ∃ ext, heap r' = heap r ++ ext.

(** [window.CONFIG] refers to the heap object [c], whose only property is
    [API_BASE_URL], a string [s]. *)
Definition configured (c : nat) (s : string) (r : realm) : Prop :=
  global r !! "CONFIG" = Some (VObject (Loc c))
  ∧ heap r !! c = Some {[ "API_BASE_URL" := VString s ]}.

(** ** The asset as a template *)

(** The file's header tells the deployer to set the literal to the public
    backend endpoint, or to leave it empty for local development: the
    asset with the literal [url] in place of the deployed one. *)
Definition config_with (url : string) : list stmt :=
  [ SAssign EWindow "CONFIG" (EObject [ ("API_BASE_URL", EString url) ]) ].



(** [window.CONFIG.API_BASE_URL = rhs;] *)
Definition override (rhs : expr) : stmt :=
  SAssign (EMember EWindow "CONFIG") "API_BASE_URL" rhs.

(** A realm has no dangling reference: every reference held by a global
    or by a property of a heap object points into the heap. *)
Definition in_heap (n : nat) (v : value) : Prop :=
  match v with
  | VObject (Loc l) => l < n
  | _ => True
  end.

Definition closed_object (n : nat) (o : object) : Prop :=
  map_Forall (λ _ v, in_heap n v) o.

Definition well_formed (r : realm) : Prop :=
  closed_object (length (heap r)) (global r)
  ∧ Forall (closed_object (length (heap r))) (heap r).

#[global] Instance in_heap_dec n v : Decision (in_heap n v).
Proof. destruct v as [| | z | s | [| l]]; simpl; apply _. Defined.

#[global] Instance closed_object_dec n o : Decision (closed_object n o).
Proof. unfold closed_object. apply _. Defined.

#[global] Instance well_formed_dec r : Decision (well_formed r).
Proof. unfold well_formed. apply _. Defined.

(** A page on which an earlier script has put its own configuration:
<<
    window.CONFIG = { API_BASE_URL: 'http://localhost:5000', DEBUG: 1 };
    window.saved = window.CONFIG;
>> *)
Definition earlier_script : list stmt :=
  [ SAssign EWindow "CONFIG"
      (EObject [ ("API_BASE_URL", EString "http://localhost:5000");
                 ("DEBUG", ENumber 1) ]);
    SAssign EWindow "saved" (EMember EWindow "CONFIG") ].

Definition preconfigured_page : realm := run earlier_script fresh_page.

(** * Properties *)

(** ** Evaluation only allocates *)

Section Evaluation.

Lemma extends_refl r : extends r r.
Proof. split; [done | exists []; by rewrite app_nil_r]. Qed.

Lemma extends_trans r1 r2 r3 : extends r1 r2 → extends r2 r3 → extends r1 r3.
Proof.
  intros [Hg1 [e1 Hh1]] [Hg2 [e2 Hh2]]. split; [congruence |].
  exists (e1 ++ e2). by rewrite Hh2, Hh1, app_assoc.
Qed.

Lemma alloc_extends o r : extends r (alloc o r).2.
Proof. split; [done | by exists [o]]. Qed.

Lemma eval_object ps r : eval (EObject ps) r = eval_fields ps ∅ r.
Proof. reflexivity. Qed.

Lemma expr_nested_ind (P : expr → Prop) :
  P EWindow → P EUndefined → P ENull →
  (∀ z, P (ENumber z)) → (∀ s, P (EString s)) →
  (∀ ps, Forall (λ kv, P kv.2) ps → P (EObject ps)) →
  (∀ e p, P e → P (EMember e p)) →
  ∀ e, P e.
Proof.
  intros Hw Hu Hn Hz Hs Ho Hm. fix IH 1. intros [| | | z | s | ps | e p].
  - exact Hw.
  - exact Hu.
  - exact Hn.
  - apply Hz.
  - apply Hs.
  - apply Ho. induction ps as [| [k e] ps IHps]; constructor; [apply IH | exact IHps].
  - apply Hm, IH.
Qed.

Lemma eval_fields_extends ps :
  Forall (λ kv, ∀ r v r', eval kv.2 r = Ok (v, r') → extends r r') ps →
  ∀ o r v r', eval_fields ps o r = Ok (v, r') → extends r r'.
Proof.
  induction 1 as [| [k e] ps He _ IH]; intros o r v r' Hev; simpl in *.
  - inversion Hev; subst. apply (alloc_extends o r).
  - destruct (eval e r) as [[v1 r1] |] eqn:E; [| discriminate].
    eapply extends_trans; [exact (He _ _ _ E) | exact (IH _ _ _ _ Hev)].
Qed.

Lemma eval_extends e : ∀ r v r', eval e r = Ok (v, r') → extends r r'.
Proof.
  induction e as [| | | z | s | ps IH | e p IH] using expr_nested_ind;
    intros r v r' Hev; simpl in Hev;
    try (inversion Hev; subst; apply extends_refl).
  - change (eval_fields ps ∅ r = Ok (v, r')) in Hev.
    exact (eval_fields_extends ps IH _ _ _ _ Hev).
  - destruct (eval e r) as [[b r1] |] eqn:E; [| discriminate].
    destruct (get_prop b p r1); [| discriminate].
    inversion Hev; subst. exact (IH _ _ _ E).
Qed.

(** A member read of a member read of [window] leaves the realm alone. *)
Lemma get_api_base_url_pure r v r' : get_api_base_url r = Ok (v, r') → r' = r.
Proof.
  unfold get_api_base_url. simpl. intros H.
  destruct (default VUndefined (global r !! "CONFIG")) as [| | z | s | x];
    simpl in H; try discriminate; try (by inversion H).
  destruct (deref x r); [by inversion H | discriminate].
Qed.

End Evaluation.

(** ** The configuration, once defined *)

Section Configured.

Lemma configured_extends c s r r' :
  configured c s r → extends r r' → configured c s r'.
Proof.
  intros [Hg Hh] [Hg' [ext Hh']]. split; [by rewrite Hg' |].
  rewrite Hh'. by apply lookup_app_l_Some.
Qed.

Lemma configured_object c s r : configured c s r → config_object r = Some c.
Proof. intros [Hg _]. unfold config_object. by rewrite Hg. Qed.

Lemma configured_read c s r :
  configured c s r → get_api_base_url r = Ok (VString s, r).
Proof.
  intros [Hg Hh]. unfold get_api_base_url. simpl. rewrite Hg. simpl.
  rewrite Hh. simpl. by rewrite lookup_singleton_eq.
Qed.

Lemma load_ok r0 :
  exec_script config_js r0
  = Ok (Realm (<["CONFIG" := VObject (Loc (length (heap r0)))]> (global r0))
              (heap r0 ++ [ {[ "API_BASE_URL" := VString "https://meetingnotes.onrender.com" ]} ])).
Proof. reflexivity. Qed.

Lemma load_configured r0 :
  ∃ r1, exec_script config_js r0 = Ok r1
        ∧ configured (length (heap r0)) "https://meetingnotes.onrender.com" r1.
Proof.
  eexists. split; [apply load_ok |]. split; simpl.
  - apply lookup_insert_eq.
  - rewrite lookup_app_r by lia. by rewrite Nat.sub_diag.
Qed.






(** Reads leave a configured realm as it is. *)
Lemma reads_configured c s n r : configured c s r → reads n r = Ok r.
Proof.
  intros Hc. pose proof (configured_read _ _ _ Hc) as Hread.
  induction n as [| n IH]; simpl; [done | by rewrite Hread].
Qed.

End Configured.

(** ** The ownership rule is a rule, not a mechanism

    The object literal is an ordinary object: nothing freezes it, and an
    assignment through an alias goes through.  The page-lifetime
    properties below are therefore stated for consumers that keep to the
    rule. *)

Example intruder_breaks_rule :
  page_disciplined fresh_page (consumers ++ [intruder]) = false.
Proof. vm_compute. reflexivity. Qed.

Example intruder_changes_value :
  ∃ r, page fresh_page (consumers ++ [intruder]) = Ok r
       ∧ get_api_base_url r = Ok (VNumber 42, r).
Proof. eexists. split; vm_compute; reflexivity. Qed.

(** A read before the asset has loaded goes through [undefined]. *)
Example read_before_load : get_api_base_url fresh_page = Throw TypeError.
Proof. reflexivity. Qed.

(** ** The claims *)

(** C1: with the deployed literal, a read of the [API_BASE_URL] field
    returns exactly ['https://meetingnotes.onrender.com'], and that string
    parsed as a URL has scheme [https], host [meetingnotes.onrender.com]
    and an empty path. *)
Theorem deployed_value_and_url (r0 : realm) :
  ∃ r1 s u,
    exec_script config_js r0 = Ok r1
    ∧ get_api_base_url r1 = Ok (VString s, r1)
    ∧ s = "https://meetingnotes.onrender.com"
    ∧ URL.parse_url s = Some u
    ∧ URL.scheme u = "https"
    ∧ URL.host u = "meetingnotes.onrender.com"
    ∧ URL.path u = "".
Proof.
  destruct (load_configured r0) as [r1 [Hload Hc]].
  exists r1. do 2 eexists. split; [exact Hload |].
  split; [exact (configured_read _ _ _ Hc) |]. split; [reflexivity |].
  split; [vm_compute; reflexivity |]. by repeat split.
Qed.

(** C2: after the configuration asset has loaded, the global record
    [window.CONFIG] exists and exposes the field [API_BASE_URL]. *)
Theorem config_present (r0 : realm) :
  ∃ r1 l o v,
    exec_script config_js r0 = Ok r1
    ∧ global r1 !! "CONFIG" = Some (VObject (Loc l))
    ∧ heap r1 !! l = Some o
    ∧ o !! "API_BASE_URL" = Some v.
Proof.
  destruct (load_configured r0) as [r1 [Hload [Hg Hh]]].
  exists r1, (length (heap r0)). do 2 eexists.
  split; [exact Hload |]. split; [exact Hg |]. split; [exact Hh |].
  apply lookup_singleton_eq.
Qed.


(** C4: when the [API_BASE_URL] string is not empty, it parses as an
    absolute URL whose scheme is [http] or [https]. *)
Theorem api_base_url_is_http_url (r0 r1 : realm) (s : string) :
  exec_script config_js r0 = Ok r1 →
  get_api_base_url r1 = Ok (VString s, r1) →
  s ≠ "" →
  ∃ u, URL.parse_url s = Some u
       ∧ (URL.scheme u = "http" ∨ URL.scheme u = "https")
       ∧ URL.is_http_url u = true.
Proof.
  intros Hload Hread _.
  destruct (load_configured r0) as [r1' [Hload' Hc]].
  assert (r1' = r1) as -> by congruence.
  rewrite (configured_read _ _ _ Hc) in Hread.
  assert (s = "https://meetingnotes.onrender.com") as -> by congruence.
  eexists. split; [vm_compute; reflexivity |]. split; [by right | done].
Qed.



(** C7: the configuration is not mutated after its definition: a read
    has no effect on the realm it runs in, whatever that realm is, and on
    a loaded page any number of reads leaves the realm exactly as the
    definition made it. *)
Theorem config_not_mutated (r0 r : realm) (n : nat) :
  match get_api_base_url r with
  | Ok (_, r') => r' = r
  | Throw _ => True
  end
  ∧ ∃ r1, exec_script config_js r0 = Ok r1
          ∧ reads n r1 = Ok r1
          ∧ get_api_base_url r1 = Ok (VString "https://meetingnotes.onrender.com", r1).
Proof.
  split.
  - destruct (get_api_base_url r) as [[v r'] |] eqn:E; [| done].
    exact (get_api_base_url_pure _ _ _ E).
  - destruct (load_configured r0) as [r1 [Hload Hc]].
    pose proof (configured_read _ _ _ Hc) as Hread.
    exists r1. split; [exact Hload |]. split; [| exact Hread].
    exact (reads_configured _ _ n _ Hc).
Qed.

(** C8: the whole artifact is one assignment to the global [CONFIG] of an
    object literal whose single entry binds [API_BASE_URL] to a string
    literal; loading it sets that one global, allocates that one object
    and changes nothing else. *)
Theorem artifact_shape (r0 : realm) :
  ∃ s,
    config_js = [ SAssign EWindow "CONFIG" (EObject [ ("API_BASE_URL", EString s) ]) ]
    ∧ exec_script config_js r0
      = Ok (Realm (<["CONFIG" := VObject (Loc (length (heap r0)))]> (global r0))
                  (heap r0 ++ [ {[ "API_BASE_URL" := VString s ]} ])).
Proof. eexists. split; [reflexivity | apply load_ok]. Qed.

(** C9: the object held by [window.CONFIG] has exactly one own property,
    [API_BASE_URL]. *)
Theorem config_single_property (r0 : realm) :
  ∃ r1 l o,
    exec_script config_js r0 = Ok r1
    ∧ global r1 !! "CONFIG" = Some (VObject (Loc l))
    ∧ heap r1 !! l = Some o
    ∧ dom o = {[ "API_BASE_URL" ]}
    ∧ size o = 1.
Proof.
  destruct (load_configured r0) as [r1 [Hload [Hg Hh]]].
  exists r1, (length (heap r0)). eexists.
  split; [exact Hload |]. split; [exact Hg |]. split; [exact Hh |].
  split; [apply dom_singleton_L | apply map_size_singleton].
Qed.

(** C10: the deployed [API_BASE_URL] is a non-empty string that does not
    end in a slash: the shipped artifact is not in the empty,
    same-origin mode. *)
Theorem deployed_literal_nonempty (r0 : realm) :
  ∃ r1 s,
    exec_script config_js r0 = Ok r1
    ∧ get_api_base_url r1 = Ok (VString s, r1)
    ∧ s ≠ ""
    ∧ last_char s ≠ Some "/"%char.
Proof.
  destruct (load_configured r0) as [r1 [Hload Hc]].
  exists r1. eexists. split; [exact Hload |].
  split; [exact (configured_read _ _ _ Hc) |].
  split; [discriminate | vm_compute; discriminate].
Qed.

(** ** The theorems at a concrete page *)


Lemma api_base_url_is_http_url_witness :
  exec_script config_js fresh_page = Ok loaded_page
  ∧ get_api_base_url loaded_page
    = Ok (VString "https://meetingnotes.onrender.com", loaded_page)
  ∧ "https://meetingnotes.onrender.com" ≠ ""
  ∧ ∃ u, URL.parse_url "https://meetingnotes.onrender.com" = Some u
         ∧ (URL.scheme u = "http" ∨ URL.scheme u = "https")
         ∧ URL.is_http_url u = true.
Proof.
  assert (Hload : exec_script config_js fresh_page = Ok loaded_page)
    by (vm_compute; reflexivity).
  assert (Hread : get_api_base_url loaded_page
                  = Ok (VString "https://meetingnotes.onrender.com", loaded_page))
    by (vm_compute; reflexivity).
  assert (Hne : "https://meetingnotes.onrender.com" ≠ "") by discriminate.
  split; [exact Hload |]. split; [exact Hread |]. split; [exact Hne |].
  exact (api_base_url_is_http_url fresh_page loaded_page _ Hload Hread Hne).
Defined.



(** ** Pages on which a script writes to the configuration

    Without the ownership rule the three page-lifetime statements fail:
    the asset defines the object and leaves it writable. *)




(** * Further properties of the asset *)

Section Template.

Lemma config_js_template :
  config_js = config_with "https://meetingnotes.onrender.com".
Proof. reflexivity. Qed.


End Template.

(** ** Scripts leave no dangling reference *)

Section WellFormed.

Lemma in_heap_mono n m v : n ≤ m → in_heap n v → in_heap m v.
Proof. destruct v as [| | z | s | [| l]]; simpl; try done. lia. Qed.

Lemma closed_object_mono n m o : n ≤ m → closed_object n o → closed_object m o.
Proof. intros Hle Ho k v Hkv. eapply in_heap_mono; [exact Hle | exact (Ho k v Hkv)]. Qed.

Lemma alloc_well_formed o r :
  well_formed r → closed_object (length (heap r)) o →
  well_formed (alloc o r).2 ∧ in_heap (length (heap (alloc o r).2)) (VObject (alloc o r).1).
Proof.
  intros [Hg Hh] Ho. unfold well_formed. simpl. rewrite length_app. simpl.
  split; [split |]; [| | lia].
  - eapply closed_object_mono; [| exact Hg]. lia.
  - apply Forall_app. split.
    + eapply Forall_impl; [exact Hh |]. intros o'. apply closed_object_mono. lia.
    + constructor; [| constructor]. eapply closed_object_mono; [| exact Ho]. lia.
Qed.

Lemma get_prop_in_heap b p r v :
  well_formed r → get_prop b p r = Ok v → in_heap (length (heap r)) v.
Proof.
  intros [Hg Hh] Hget. destruct b as [| | z | s | [| l]]; simpl in Hget;
    try discriminate; try (by inversion Hget).
  - inversion Hget; subst. destruct (global r !! p) as [v |] eqn:E; [| done].
    exact (Hg p v E).
  - destruct (heap r !! l) as [o |] eqn:El; [| discriminate].
    inversion Hget; subst. destruct (o !! p) as [v |] eqn:E; [| done].
    rewrite Forall_lookup in Hh. exact (Hh l o El p v E).
Qed.

Lemma set_prop_well_formed b p v r r' :
  well_formed r → in_heap (length (heap r)) v →
  set_prop b p v r = Ok r' → well_formed r'.
Proof.
  intros [Hg Hh] Hv Hset. destruct b as [| | z | s | [| l]]; simpl in Hset;
    try discriminate; try (by inversion Hset; subst).
  - inversion Hset; subst. split; simpl; [| done].
    by apply map_Forall_insert_2.
  - destruct (heap r !! l) as [o |] eqn:El; [| discriminate].
    inversion Hset; subst. split; simpl; rewrite length_insert; [done |].
    rewrite Forall_lookup in Hh.
    apply Forall_insert; [by apply Forall_lookup |].
    apply map_Forall_insert_2; [done | exact (Hh l o El)].
Qed.

Lemma eval_fields_well_formed ps :
  Forall (λ kv, ∀ r v r', well_formed r → eval kv.2 r = Ok (v, r')
                          → well_formed r' ∧ in_heap (length (heap r')) v) ps →
  ∀ o r v r', well_formed r → closed_object (length (heap r)) o →
              eval_fields ps o r = Ok (v, r') →
              well_formed r' ∧ in_heap (length (heap r')) v.
Proof.
  induction 1 as [| [k e] ps He _ IH]; intros o r v r' Hwf Ho Hev; simpl in *.
  - inversion Hev; subst. by apply alloc_well_formed.
  - destruct (eval e r) as [[v1 r1] |] eqn:E; [| discriminate].
    destruct (He _ _ _ Hwf E) as [Hwf1 Hv1].
    destruct (eval_extends _ _ _ _ E) as [_ [ext Hext]].
    apply (IH (<[k := v1]> o) r1 v r' Hwf1); [| exact Hev].
    apply map_Forall_insert_2; [exact Hv1 |].
    eapply closed_object_mono; [| exact Ho]. rewrite Hext, length_app. lia.
Qed.

Lemma eval_well_formed e : ∀ r v r',
  well_formed r → eval e r = Ok (v, r') →
  well_formed r' ∧ in_heap (length (heap r')) v.
Proof.
  induction e as [| | | z | s | ps IH | e p IH] using expr_nested_ind;
    intros r v r' Hwf Hev; simpl in Hev;
    try (by inversion Hev; subst).
  - change (eval_fields ps ∅ r = Ok (v, r')) in Hev.
    apply (eval_fields_well_formed ps IH ∅ r v r' Hwf); [| exact Hev].
    apply map_Forall_empty.
  - destruct (eval e r) as [[b r1] |] eqn:E; [| discriminate].
    destruct (get_prop b p r1) as [w |] eqn:G; [| discriminate].
    inversion Hev; subst. destruct (IH _ _ _ Hwf E) as [Hwf1 _].
    split; [exact Hwf1 | exact (get_prop_in_heap _ _ _ _ Hwf1 G)].
Qed.

Lemma exec_well_formed s r r' : well_formed r → exec s r = Ok r' → well_formed r'.
Proof.
  intros Hwf Hex. destruct s as [target p rhs]. unfold exec in Hex.
  destruct (eval target r) as [[b r1] |] eqn:E1; [| discriminate].
  destruct (eval rhs r1) as [[v r2] |] eqn:E2; [| discriminate].
  destruct (eval_well_formed _ _ _ _ Hwf E1) as [Hwf1 _].
  destruct (eval_well_formed _ _ _ _ Hwf1 E2) as [Hwf2 Hv].
  exact (set_prop_well_formed _ _ _ _ _ Hwf2 Hv Hex).
Qed.

Lemma run_well_formed cs : ∀ r, well_formed r → well_formed (run cs r).
Proof.
  induction cs as [| s cs IH]; intros r Hwf; simpl; [done |].
  apply IH. unfold step. destruct (exec s r) as [r' |] eqn:E; [| done].
  exact (exec_well_formed _ _ _ Hwf E).
Qed.

Lemma fresh_page_well_formed : well_formed fresh_page.
Proof. split; [apply map_Forall_empty | constructor]. Qed.

End WellFormed.


(** X2: the asset rebinds [window.CONFIG], it does not merge into it.
    When an earlier script had put an object there, after the load
    [window.CONFIG] refers to another object, whose own properties are
    [API_BASE_URL], the deployed literal, and nothing the earlier object
    had besides; the earlier object is still in the heap as it was. *)
Theorem load_rebinds_config (r0 : realm) (l : nat) (o : object) (p : string) :
  global r0 !! "CONFIG" = Some (VObject (Loc l)) →
  heap r0 !! l = Some o →
  p ≠ "API_BASE_URL" →
  ∃ r1 c o',
    exec_script config_js r0 = Ok r1
    ∧ config_object r1 = Some c
    ∧ c ≠ l
    ∧ heap r1 !! c = Some o'
    ∧ o' !! p = None
    ∧ o' !! "API_BASE_URL" = Some (VString "https://meetingnotes.onrender.com")
    ∧ heap r1 !! l = Some o.
Proof.
  intros Hg Hh Hp.
  destruct (load_configured r0) as [r1 [Hload Hc]].
  pose proof (lookup_lt_Some _ _ _ Hh) as Hlt.
  exists r1, (length (heap r0)). eexists. split; [exact Hload |].
  split; [exact (configured_object _ _ _ Hc) |].
  split; [lia |]. split; [exact (proj2 Hc) |].
  split; [by apply lookup_singleton_ne |].
  split; [apply lookup_singleton_eq |].
  rewrite load_ok in Hload. inversion Hload; subst; simpl.
  by apply lookup_app_l_Some.
Qed.

(** X3: nothing in the asset protects the object.  On a loaded page the
    assignment [window.CONFIG.API_BASE_URL = rhs] succeeds whenever [rhs]
    evaluates, and the next read returns the assigned value, whatever its
    type; the ownership rule classifies the assignment as a breach. *)
Theorem config_overridable (r0 r1 r2 : realm) (rhs : expr) (v : value) :
  exec_script config_js r0 = Ok r1 →
  eval rhs r1 = Ok (v, r2) →
  ∃ r3,
    exec (override rhs) r1 = Ok r3
    ∧ get_api_base_url r3 = Ok (v, r3)
    ∧ read_only (override rhs) r1 = false.
Proof.
  intros Hload Hrhs.
  destruct (load_configured r0) as [r1' [Hload' Hc]].
  assert (r1' = r1) as -> by congruence.
  pose proof (configured_extends _ _ _ _ Hc (eval_extends _ _ _ _ Hrhs)) as [Hg2 Hh2].
  destruct Hc as [Hg1 Hh1].
  pose proof (lookup_lt_Some _ _ _ Hh2) as Hlt.
  eexists. split; [| split].
  - unfold override, exec. simpl. rewrite Hg1. simpl. rewrite Hrhs. simpl.
    rewrite Hh2. reflexivity.
  - unfold get_api_base_url. simpl. rewrite Hg2. simpl.
    rewrite list_lookup_insert_eq by exact Hlt. simpl.
    by rewrite lookup_insert_eq.
  - unfold read_only, override, assigned, config_object. simpl.
    rewrite Hg1. simpl. apply bool_decide_eq_false. by intros H; apply H.
Qed.


(** X6: the object the asset creates is new.  On a page without dangling
    references, after the load no global other than [CONFIG] and no
    property of any heap object refers to the configuration object, and
    the page still has no dangling reference. *)
Theorem config_object_fresh (r0 : realm) :
  well_formed r0 →
  ∃ r1 c,
    exec_script config_js r0 = Ok r1
    ∧ config_object r1 = Some c
    ∧ (∀ k, global r1 !! k = Some (VObject (Loc c)) → k = "CONFIG")
    ∧ (∀ l o p, heap r1 !! l = Some o → o !! p ≠ Some (VObject (Loc c)))
    ∧ well_formed r1.
Proof.
  intros [Hwg Hwh].
  destruct (load_configured r0) as [r1 [Hload Hc]].
  exists r1, (length (heap r0)). split; [exact Hload |].
  split; [exact (configured_object _ _ _ Hc) |].
  rewrite load_ok in Hload. inversion Hload; subst; simpl. clear Hload Hc.
  assert (Hmono : ∀ o, closed_object (length (heap r0)) o
                       → closed_object (length (heap r0 ++ [
                           {[ "API_BASE_URL" := VString "https://meetingnotes.onrender.com" ]} ])) o).
  { intros o Ho k v Hkv. specialize (Ho k v Hkv). rewrite length_app. simpl.
    destruct v as [| | z | s | [| l]]; simpl in *; try done. lia. }
  split; [| split; [| split]].
  - intros k Hk. destruct (decide (k = "CONFIG")) as [-> | Hne]; [done |].
    rewrite lookup_insert_ne in Hk by done.
    specialize (Hwg k _ Hk). simpl in Hwg. lia.
  - intros l o p Hl Hp.
    destruct (decide (l < length (heap r0))) as [Hlt | Hge].
    + rewrite lookup_app_l in Hl by exact Hlt.
      rewrite Forall_lookup in Hwh. specialize (Hwh l o Hl p _ Hp).
      simpl in Hwh. lia.
    + rewrite lookup_app_r in Hl by lia.
      destruct (l - length (heap r0)) as [| m]; simpl in Hl; [| done].
      inversion Hl; subst.
      destruct (decide (p = "API_BASE_URL")) as [-> | Hne].
      * by rewrite lookup_singleton_eq in Hp.
      * by rewrite lookup_singleton_ne in Hp.
  - apply map_Forall_insert_2.
    + simpl. rewrite length_app. simpl. lia.
    + by apply Hmono.
  - apply Forall_app. split.
    + eapply Forall_impl; [exact Hwh | exact Hmono].
    + constructor; [| constructor]. by apply map_Forall_singleton.
Qed.

(** ** The further properties at concrete pages *)


Lemma load_rebinds_config_witness :
  global preconfigured_page !! "CONFIG" = Some (VObject (Loc 0))
  ∧ heap preconfigured_page !! 0
    = Some (<["DEBUG" := VNumber 1]>
              {[ "API_BASE_URL" := VString "http://localhost:5000" ]})
  ∧ "DEBUG" ≠ "API_BASE_URL"
  ∧ ∃ r1 c o',
      exec_script config_js preconfigured_page = Ok r1
      ∧ config_object r1 = Some c
      ∧ c ≠ 0
      ∧ heap r1 !! c = Some o'
      ∧ o' !! "DEBUG" = None
      ∧ o' !! "API_BASE_URL" = Some (VString "https://meetingnotes.onrender.com")
      ∧ heap r1 !! 0
        = Some (<["DEBUG" := VNumber 1]>
                  {[ "API_BASE_URL" := VString "http://localhost:5000" ]}).
Proof.
  assert (Hg : global preconfigured_page !! "CONFIG" = Some (VObject (Loc 0)))
    by (vm_compute; reflexivity).
  assert (Hh : heap preconfigured_page !! 0
               = Some (<["DEBUG" := VNumber 1]>
                         {[ "API_BASE_URL" := VString "http://localhost:5000" ]}))
    by (vm_compute; reflexivity).
  assert (Hp : "DEBUG" ≠ "API_BASE_URL") by discriminate.
  split; [exact Hg |]. split; [exact Hh |]. split; [exact Hp |].
  exact (load_rebinds_config preconfigured_page 0 _ "DEBUG" Hg Hh Hp).
Defined.

Lemma config_overridable_witness :
  exec_script config_js fresh_page = Ok loaded_page
  ∧ eval (ENumber 42) loaded_page = Ok (VNumber 42, loaded_page)
  ∧ ∃ r3,
      exec (override (ENumber 42)) loaded_page = Ok r3
      ∧ get_api_base_url r3 = Ok (VNumber 42, r3)
      ∧ read_only (override (ENumber 42)) loaded_page = false.
Proof.
  assert (Hload : exec_script config_js fresh_page = Ok loaded_page)
    by (vm_compute; reflexivity).
  assert (Hrhs : eval (ENumber 42) loaded_page = Ok (VNumber 42, loaded_page))
    by reflexivity.
  split; [exact Hload |]. split; [exact Hrhs |].
  exact (config_overridable fresh_page loaded_page loaded_page
           (ENumber 42) (VNumber 42) Hload Hrhs).
Defined.


Lemma config_object_fresh_witness :
  well_formed preconfigured_page
  ∧ ∃ r1 c,
      exec_script config_js preconfigured_page = Ok r1
      ∧ config_object r1 = Some c
      ∧ (∀ k, global r1 !! k = Some (VObject (Loc c)) → k = "CONFIG")
      ∧ (∀ l o p, heap r1 !! l = Some o → o !! p ≠ Some (VObject (Loc c)))
      ∧ well_formed r1.
Proof.
  assert (Hwf : well_formed preconfigured_page)
    by (apply (bool_decide_unpack _); vm_compute; exact I).
  split; [exact Hwf |].
  exact (config_object_fresh preconfigured_page Hwf).
Defined.
